(** * rotki frontend view components: model and properties

    A shallow embedding of the script blocks of the view components

      - [components/defi/display/DefiProtocolIcon.vue]
      - [components/history/events/forms/HistoryEventTypeForm.vue]
      - [components/history/deposits-withdrawals/DepositsWithdrawalsContent.vue]
      - [components/dashboard/NftBalanceTable.vue]
      - the account management dialog (create / edit of blockchain accounts)

    Computed properties are pure functions of the refs they read.  Event
    handlers and lifecycle hooks are computations in a small monad that
    threads the component state, records the calls made to collaborators
    (composables, stores, emits) and can reject, as an [async] function
    does when an awaited promise rejects or an [assert] fails. *)

From Stdlib Require Import Ascii.
From stdpp Require Import gmap strings list.

(** ** JavaScript string methods used by the components *)

Module JsString.

(** [isPrefix p s]: the characters of [p] are the first characters of [s]. *)
Fixpoint isPrefix (p s : string) : bool :=
  match p, s with
  | EmptyString, _ => true
  | String _ _, EmptyString => false
  | String a p', String b s' => Ascii.eqb a b && isPrefix p' s'
  end.

(** [s.substring(n)] *)
Fixpoint dropChars (n : nat) (s : string) : string :=
  match n, s with
  | O, _ => s
  | S _, EmptyString => EmptyString
  | S n', String _ s' => dropChars n' s'
  end.

(** [s.startsWith(search)] *)
Definition startsWith (s search : string) : bool := isPrefix search s.

(** [s.endsWith(search)]: the last [search.length] characters of [s]
    are [search]. *)
Definition endsWith (s search : string) : bool :=
  let n := String.length s in
  let k := String.length search in
  (k <=? n) && String.eqb (dropChars (n - k) s) search.

(** [s.replace(pattern, replacement)] with a string pattern: only the first
    occurrence, scanning from the left, is replaced; a string without an
    occurrence is returned as it is.  (The replacements used by the
    components contain no [$] pattern.) *)
Fixpoint replace (s pattern replacement : string) : string :=
  if isPrefix pattern s
  then replacement +:+ dropChars (String.length pattern) s
  else match s with
       | EmptyString => EmptyString
       | String c s' => String c (replace s' pattern replacement)
       end.

End JsString.

(** ** Effects of handlers and hooks *)

Module Effect.

(** A computation over the component state [S] that records the calls of
    type [E] it makes, in order, and either returns a value or rejects
    ([None]): what an [async] function of the component does between two
    turns of the event loop, with the results of the awaited collaborator
    calls given beforehand.  A rejection keeps the state and the calls
    made so far and skips the rest of the function. *)
Definition M (S E A : Type) : Type := S → S * list E * option A.

Section Ops.
Context {S E : Type}.

Definition ret {A} (a : A) : M S E A := λ s, (s, [], Some a).

Definition bind {A B} (m : M S E A) (k : A → M S E B) : M S E B :=
  λ s,
    match m s with
    | (s1, l1, Some a) =>
        match k a s1 with
        | (s2, l2, r) => (s2, l1 ++ l2, r)
        end
    | (s1, l1, None) => (s1, l1, None)
    end.

(** [get(ref)] and [set(ref, v)] on the refs of the component. *)
Definition gets {A} (f : S → A) : M S E A := λ s, (s, [], Some (f s)).
Definition modify (f : S → S) : M S E unit := λ s, (f s, [], Some tt).

(** A call to a collaborator, with the result its promise settles to;
    [None] is a rejected promise. *)
Definition call {A} (e : E) (result : option A) : M S E A :=
  λ s, (s, [e], result).

(** An awaited call to a collaborator that shares refs with the component,
    or during which the user can act: while the promise is pending the refs
    change as [during] says (other handlers and watchers run, the
    collaborator writes the refs it was given); then the promise settles to
    [result]. *)
Definition await {A} (e : E) (result : option A) (during : S → S) : M S E A :=
  λ s, (during s, [e], result).

(** [assert(cond)] throws when the condition does not hold. *)
Definition assert (cond : bool) : M S E unit :=
  λ s, (s, [], if cond then Some tt else None).

Definition state_of {A} (r : S * list E * option A) : S := r.1.1.
Definition calls_of {A} (r : S * list E * option A) : list E := r.1.2.
Definition outcome_of {A} (r : S * list E * option A) : option A := r.2.
End Ops.

#[global] Instance M_ret {S E} : MRet (M S E) := @ret S E.
#[global] Instance M_bind {S E} : MBind (M S E) := λ A B k m, bind m k.

End Effect.

(** ** The reactivity primitives of the framework used by the components *)

Module Vue.
Import Effect.

Section Watch.
Context {A : Type} `{EqDecision A} {S E : Type}.
(** the callback [(value, oldValue) => ...] *)
Variable cb : A → A → M S E unit.

(** The job of [watch(source, cb)] (default options: not immediate, not
    deep, flushed with the component update).  Writes to the source made
    during a tick only queue the job, once; when it runs it reads the
    source, and calls [cb] with the value read and the value of its
    previous run only if the two differ. *)
Definition runWatcher (value oldValue : A) : M S E unit :=
  if decide (value = oldValue) then mret tt else cb value oldValue.

(** The value of a ref after the writes of one tick, in order. *)
Definition afterWrites (value : A) (writes : list A) : A :=
  foldl (λ _ w, w) value writes.

(** One tick: the source, whose value at the previous run of the job was
    [oldValue], is written [writes]; then the queue is flushed.  Returns
    the value the job has now seen. *)
Definition tick (oldValue : A) (writes : list A) : M S E A :=
  let value := afterWrites oldValue writes in
  runWatcher value oldValue ;; mret value.
End Watch.

End Vue.

(** ** Array methods *)

Module JsArray.

(** [l.splice(start, deleteCount)] for [0 <= start] and [0 <= deleteCount]:
    the array that is left. *)
Definition splice {A} (l : list A) (start deleteCount : nat) : list A :=
  take start l ++ drop (start + deleteCount) l.

(** [l.includes(x)] *)
Definition includes {A} `{EqDecision A} (l : list A) (x : A) : bool :=
  bool_decide (x ∈ l).

End JsArray.

(** ** DefiProtocolIcon.vue *)

Module DefiProtocolIcon.
Import JsString.

(** The computed [icon] (the name of the image file of the protocol). *)
Definition icon (protocol : string) : string :=
  let defiProtocol := protocol in
  if endsWith defiProtocol "_v2" then replace defiProtocol "_v2" ""
  else if startsWith defiProtocol "makerdao" then "makerdao"
  else defiProtocol.

End DefiProtocolIcon.

(** ** HistoryEventTypeForm.vue *)

Module HistoryEventTypeForm.
Import JsArray.

(** [ActionDataEntry]: an option of the auto-complete. *)
Record ActionDataEntry := {
  identifier : string;
  label : string;
}.

Section Form.
(** What the global mapping stores per event type and subtype; the
    component only looks at the keys. *)
Context {V : Type}.

(** [Object.keys(o)]: the own keys of [o]. *)
Definition objectKeys (o : gmap string V) : list string :=
  (map_to_list o).*1.

(** The computed [historyEventSubTypeFilteredData], as a function of the
    refs it reads: the prop [eventType], [historyEventSubTypesData] and
    [historyEventTypeGlobalMapping].  A string is falsy exactly when it
    is empty; an entry of the mapping is an object, hence truthy.  (For an
    event type that only names an inherited property of the mapping object,
    [Object.keys] of what is found is empty, as for an absent entry.) *)
Definition historyEventSubTypeFilteredData
    (eventType : string)
    (historyEventSubTypesData : list ActionDataEntry)
    (historyEventTypeGlobalMapping : gmap string (gmap string V))
    : list ActionDataEntry :=
  let eventTypeVal := eventType in
  let allData := historyEventSubTypesData in
  let globalMapping := historyEventTypeGlobalMapping in
  if bool_decide (eventTypeVal = "") then allData
  else
    let globalMappingKeys :=
      match globalMapping !! eventTypeVal with
      | Some globalMappingFound => objectKeys globalMappingFound
      | None => []
      end in
    List.filter (λ data, includes globalMappingKeys (identifier data)) allData.
End Form.

End HistoryEventTypeForm.

(** ** Data table columns *)

Module DataTable.

(** [DataTableColumn] of the UI library, with the attributes the views set. *)
Record DataTableColumn := {
  key : string;
  label : string;
  align : option string;
  cellClass : option string;
  class : option string;
  sortable : bool;
}.

End DataTable.

(** ** DepositsWithdrawalsContent.vue *)

Module DepositsWithdrawalsContent.
Import Effect JsArray DataTable.

(** [AssetMovementEntry], with the attributes the script reads. *)
Record AssetMovementEntry := {
  identifier : string;
  category : string;
  ignoredInAccounting : bool;
}.

(** The part of [AssetMovementRequestPayload] the view contributes: the
    objects of the computed [extraParams] and [requestParams]. *)
Record ExtraParams := { excludeIgnoredAssets : bool }.
Record RequestParams := { location : option string }.
Record RequestPayload := {
  extra : ExtraParams;
  request : RequestParams;
}.

(** Calls to the collaborators of the view. *)
Inductive Call :=
| fetchAssetMovements (payload : RequestPayload)
| refreshAssetMovements (userInitiated : option bool)
| ignoreItems (identifiers : list string) (ignored : bool)
| setPage (page : nat).

#[global] Instance ExtraParams_eq_dec : EqDecision ExtraParams.
Proof. solve_decision. Defined.
#[global] Instance RequestParams_eq_dec : EqDecision RequestParams.
Proof. solve_decision. Defined.
#[global] Instance RequestPayload_eq_dec : EqDecision RequestPayload.
Proof. solve_decision. Defined.
#[global] Instance Call_eq_dec : EqDecision Call.
Proof. solve_decision. Defined.

(** The refs of the view. *)
Record State := {
  showIgnoredAssets : bool;
  selected : list AssetMovementEntry;
  assetMovements : list AssetMovementEntry;  (* [assetMovements.data] *)
}.

Definition set_showIgnoredAssets (b : bool) (st : State) : State :=
  {| showIgnoredAssets := b;
     selected := selected st;
     assetMovements := assetMovements st |}.

Definition set_selected (sel : list AssetMovementEntry) (st : State) : State :=
  {| showIgnoredAssets := showIgnoredAssets st;
     selected := sel;
     assetMovements := assetMovements st |}.

Definition set_assetMovements (data : list AssetMovementEntry) (st : State) : State :=
  {| showIgnoredAssets := showIgnoredAssets st;
     selected := selected st;
     assetMovements := data |}.

(** The state of a freshly set up view. *)
Definition setup : State :=
  {| showIgnoredAssets := false; selected := []; assetMovements := [] |}.

(** What the collaborators answer during one handler. *)
Record Collaborators := {
  (** the page [fetchAssetMovements] resolves to, [None] if it rejects *)
  fetched : option (list AssetMovementEntry);
  (** whether [refreshAssetMovements] resolves *)
  refreshed : option unit;
  (** whether the ignore request resolves *)
  ignoredOk : option unit;
}.

Section View.
(** [t] of [useI18n], the prop [locationOverview], [toSnakeCase] *)
Variable t : string → string.
Variable locationOverview : string.
Variable toSnakeCase : string → string.
Variable env : Collaborators.

Definition mainPage : bool := bool_decide (locationOverview = "").

Definition tableHeaders : list DataTableColumn :=
  let overview := negb mainPage in
  let headers := [
    {| cellClass := Some (if negb overview then "!p-0" else "!w-0 !max-w-[4rem]");
       class := Some (if negb overview then "!p-0" else "");
       key := "ignoredInAccounting";
       label := "";
       align := None; sortable := false |};
    {| align := Some "center";
       cellClass := Some "!py-1";
       class := Some "!w-[7.5rem]";
       key := "location";
       label := t "common.location";
       sortable := true |};
    {| align := Some (if overview then "start" else "center");
       cellClass := Some (if overview then "!pl-0" else "py-1");
       class := Some ("text-no-wrap" +:+ (if overview then " !pl-0" else ""));
       key := "category";
       label := t "deposits_withdrawals.headers.action";
       sortable := true |};
    {| cellClass := Some "!py-1";
       key := "asset";
       label := t "common.asset";
       align := None; class := None; sortable := false |};
    {| align := Some "end";
       key := "amount";
       label := t "common.amount";
       sortable := true;
       cellClass := None; class := None |};
    {| align := Some "end";
       key := "fee";
       label := t "deposits_withdrawals.headers.fee";
       sortable := true;
       cellClass := None; class := None |};
    {| key := "timestamp";
       label := t "common.datetime";
       sortable := true;
       align := None; cellClass := None; class := None |}
  ] in
  if overview then splice headers 1 1 else headers.

Definition extraParams (st : State) : ExtraParams :=
  {| excludeIgnoredAssets := negb (showIgnoredAssets st) |}.

Definition requestParams : RequestParams :=
  let location_ := locationOverview in
  if bool_decide (location_ = "") then {| location := None |}
  else {| location := Some (toSnakeCase location_) |}.

(** Both, as the fetcher sends them with a request. *)
Definition pageParams (st : State) : RequestPayload :=
  {| extra := extraParams st; request := requestParams |}.

(** Modelled from the spec: [fetchData] of the collection fetcher
    ([usePaginationFilters] of composables/use-pagination-filter, whose
    implementation is not among the components modelled here): it calls the
    fetch function with the current payload and replaces the collection by
    the result. *)
Definition fetchData : M State Call unit :=
  payload ← gets pageParams;
  data ← call (fetchAssetMovements payload) (fetched env);
  modify (set_assetMovements data).

(** Modelled from the spec: the reaction of the collection fetcher
    ([usePaginationFilters]) to its inputs: it re-fetches when they change
    (section 4.1).  Here the input is the payload made of [extraParams] and
    [requestParams], compared before and after a handler ran. *)
Definition refetchOnChange (before : RequestPayload) : M State Call unit :=
  after ← gets pageParams;
  Vue.runWatcher (λ _ _, fetchData) after before.

(** The writable computed [value], the selection as identifiers. *)
Definition value_get (st : State) : option (list string) :=
  if negb mainPage then None
  else Some (map identifier (selected st)).

Definition value_set (values : option (list string)) : M State Call unit :=
  modify (λ st,
    set_selected
      (List.filter
         (λ e, match values with
               | Some vs => includes vs (identifier e)
               | None => false   (* [values?.includes(..)] is undefined *)
               end)
         (assetMovements st))
      st).

Definition getItemClass (item : AssetMovementEntry) : string :=
  if ignoredInAccounting item then "opacity-50" else "".

Definition onMounted : M State Call unit :=
  fetchData ;;
  call (refreshAssetMovements None) (refreshed env).

(** The callback of [watch(loading, ...)]. *)
Definition onLoadingChange (isLoading wasLoading : bool) : M State Call unit :=
  if negb isLoading && wasLoading then fetchData else mret tt.

(** One tick of the section's loading flag, seen by the watcher. *)
Definition loadingTick (wasLoading : bool) (writes : list bool) : M State Call bool :=
  Vue.tick onLoadingChange wasLoading writes.

(** Modelled from the spec: [ignore] of [useIgnore] (composables/history,
    whose implementation is not among the components modelled here): the
    bulk action on the selected items, followed by the refresh callback the
    view passes, [() => fetchData()]; the selection is cleared after the
    operation completes. *)
Definition ignore (ignored : bool) : M State Call unit :=
  sel ← gets selected;
  call (ignoreItems (map identifier sel) ignored) (ignoredOk env) ;;
  fetchData ;;
  modify (set_selected []).

(** What the user and the framework can do to the mounted view. *)
Inductive Event :=
| Mounted
| LoadingTick (wasLoading : bool) (writes : list bool)
| UpdateValue (values : option (list string))
| ClearSelection
| Ignore (ignored : bool)
| RefreshClicked
| SetPage (page : nat)
| SwitchShowIgnoredAssets (on : bool)
| UpdateFilters (excludeIgnoredAssetsQuery : option string).

Definition handle (ev : Event) : M State Call unit :=
  match ev with
  | Mounted => onMounted
  | LoadingTick wasLoading writes =>
      loadingTick wasLoading writes ;; mret tt
  | UpdateValue values => value_set values
  | ClearSelection => modify (set_selected [])
  | Ignore ignored => ignore ignored
  | RefreshClicked => call (refreshAssetMovements (Some true)) (refreshed env)
  | SetPage page => call (setPage page) (Some tt)
  | SwitchShowIgnoredAssets on =>
      before ← gets pageParams;
      modify (set_showIgnoredAssets on) ;;
      refetchOnChange before
  | UpdateFilters query =>
      before ← gets pageParams;
      modify (set_showIgnoredAssets (bool_decide (query = Some "false"))) ;;
      refetchOnChange before
  end.

Definition isSelectionChange (ev : Event) : bool :=
  match ev with
  | UpdateValue _ | ClearSelection => true
  | _ => false
  end.
End View.

Definition isFetch (c : Call) : bool :=
  match c with fetchAssetMovements _ => true | _ => false end.

End DepositsWithdrawalsContent.

(** ** NftBalanceTable.vue *)

Module NftBalanceTable.
Import Effect JsArray DataTable.

(** The members of the enum [TableColumn] the view asks for. *)
Inductive TableColumn :=
| PERCENTAGE_OF_TOTAL_NET_VALUE
| PERCENTAGE_OF_TOTAL_CURRENT_GROUP.

#[global] Instance TableColumn_eq_dec : EqDecision TableColumn.
Proof. solve_decision. Defined.

Record NonFungibleBalance := { id : string }.

Inductive Call :=
| fetchNonFungibleBalances (ignoredAssetsHandling : string)
| refreshNonFungibleBalances (userInitiated : option bool)
| setPage (page : nat).

#[global] Instance Call_eq_dec : EqDecision Call.
Proof. solve_decision. Defined.

Record State := { balances : list NonFungibleBalance }.

Record Collaborators := {
  fetched : option (list NonFungibleBalance);
  refreshed : option unit;
}.

Definition ignoredAssetsHandling : string := "exclude".

Section View.
(** [t] of [useI18n] with its named parameters, the currency symbol of
    the general settings, the group of the table and the visible columns
    the frontend settings store for it. *)
Variable t : string → list (string * string) → string.
Variable currencySymbol : string.
Variable group : string.
Variable visibleColumns : list TableColumn.
Variable env : Collaborators.

Definition extraParams : string := ignoredAssetsHandling.

Definition tableHeaders : list DataTableColumn :=
  let headers := [
    {| cellClass := Some "py-0";
       class := Some "text-no-wrap w-full";
       key := "name";
       label := t "common.name" [];
       sortable := true;
       align := None |};
    {| align := Some "end";
       cellClass := Some "py-0";
       class := Some "text-no-wrap";
       key := "priceInAsset";
       label := t "nft_balance_table.column.price_in_asset" [];
       sortable := false |};
    {| align := Some "end";
       cellClass := Some "py-0";
       class := Some "text-no-wrap";
       key := "usdPrice";
       label := t "common.price_in_symbol" [("symbol", currencySymbol)];
       sortable := true |}
  ] in
  let headers :=
    if includes visibleColumns PERCENTAGE_OF_TOTAL_NET_VALUE
    then headers ++ [
      {| align := Some "end";
         cellClass := Some "py-0";
         class := Some "text-no-wrap";
         key := "percentageOfTotalNetValue";
         label := t "nft_balance_table.column.percentage" [];
         sortable := false |} ]
    else headers in
  let headers :=
    if includes visibleColumns PERCENTAGE_OF_TOTAL_CURRENT_GROUP
    then headers ++ [
      {| align := Some "end";
         cellClass := Some "py-0";
         class := Some "text-no-wrap";
         key := "percentageOfTotalCurrentGroup";
         label := t "dashboard_asset_table.headers.percentage_of_total_current_group"
                    [("group", group)];
         sortable := false |} ]
    else headers in
  headers.

(** Modelled from the spec: [fetchData] of the collection fetcher
    ([usePaginationFilters] of composables/use-pagination-filter, whose
    implementation is not among the components modelled here): it calls the
    fetch function with the extra parameters and replaces the collection by
    the result. *)
Definition fetchData : M State Call unit :=
  data ← call (fetchNonFungibleBalances extraParams) (fetched env);
  modify (λ _, {| balances := data |}).

Definition onMounted : M State Call unit :=
  fetchData ;;
  call (refreshNonFungibleBalances None) (refreshed env).

(** The callback of [watch(loading, ...)]. *)
Definition onLoadingChange (isLoading wasLoading : bool) : M State Call unit :=
  if negb isLoading && wasLoading then fetchData else mret tt.

(** One tick of the section's loading flag, seen by the watcher. *)
Definition loadingTick (wasLoading : bool) (writes : list bool) : M State Call bool :=
  Vue.tick onLoadingChange wasLoading writes.
End View.

Definition isFetch (c : Call) : bool :=
  match c with fetchNonFungibleBalances _ => true | _ => false end.

End NftBalanceTable.

(** ** The account management dialog *)

Module AccountDialog.
Import Effect.

Inductive Mode := add | edit.

#[global] Instance Mode_eq_dec : EqDecision Mode.
Proof. solve_decision. Defined.

Section Dialog.
(** The payload of the form ([AccountManageState.data]); [isEqual] of
    lodash is structural equality on it. *)
Context {Data : Type} `{EqDecision Data}.

Record AccountManageState := {
  mode : Mode;
  chain : string;
  data : Data;
}.

#[global] Instance AccountManageState_eq_dec : EqDecision AccountManageState.
Proof. solve_decision. Defined.

Definition isEqual (a b : Data) : bool := bool_decide (a = b).

(** The refs of the dialog: the [model] of [defineModel], [stateUpdated]
    and the [errorMessages] of [useAccountManage].  The template ref
    [form] points to the [AccountForm], which is rendered under
    [v-if="model"]: it is defined exactly when the model is. *)
Record State := {
  model : option AccountManageState;
  stateUpdated : bool;
  errorMessages : list (string * string);
}.

Definition set_model (m : option AccountManageState) (st : State) : State :=
  {| model := m; stateUpdated := stateUpdated st;
     errorMessages := errorMessages st |}.

Definition set_stateUpdated (b : bool) (st : State) : State :=
  {| model := model st; stateUpdated := b;
     errorMessages := errorMessages st |}.

Definition set_errorMessages (e : list (string * string)) (st : State) : State :=
  {| model := model st; stateUpdated := stateUpdated st;
     errorMessages := e |}.

(** The dialog as its parent mounts it: closed. *)
Definition setup : State :=
  {| model := None; stateUpdated := false; errorMessages := [] |}.

(** Calls to the collaborators, each with what it answered: the
    validation of the child form, the save action and the emit. *)
Inductive Call :=
| validate (valid : option bool)
| save (state : AccountManageState) (success : option bool)
| emit_complete.

Section Script.
Variable t : string → string.
(** what [accountForm.validate()] resolves to, [None] if it rejects *)
Variable validateResult : option bool.
(** what [save(state)] resolves to *)
Variable saveResult : AccountManageState → option bool.
(** What happens to the refs of the dialog while [validate()], and then
    [save(state)], is pending: the dialog can be dismissed or its model
    replaced, the watcher of the model can run, and the collaborators can
    write [errorMessages], which the form and [useAccountManage] share with
    the dialog. *)
Variable duringValidate : State → State.
Variable duringSave : State → State.

Definition isEditMode (st : State) : bool :=
  match model st with
  | Some m => bool_decide (mode m = edit)
  | None => false
  end.

Definition title (st : State) : string :=
  if isEditMode st
  then t "blockchain_balances.form_dialog.edit_title"
  else t "blockchain_balances.form_dialog.add_title".

Definition subtitle (st : State) : string :=
  if isEditMode st
  then t "blockchain_balances.form_dialog.edit_subtitle"
  else "".

Definition isDefined_form (st : State) : bool :=
  bool_decide (is_Some (model st)).

Definition dismiss : M State Call unit := modify (set_model None).

Definition confirm : M State Call unit :=
  formDefined ← gets isDefined_form;
  assert formDefined ;;
  modify (set_errorMessages []) ;;
  valid ← await (validate validateResult) validateResult duringValidate;
  if negb valid then mret tt
  else
    state ← gets model;
    match state with
    | None => assert false
    | Some state =>
        success ← await (save state (saveResult state)) (saveResult state)
                    duringSave;
        if success : bool
        then call emit_complete (Some tt) ;; dismiss
        else mret tt
    end.

(** The callback of [watch(model, ..., { deep: true })]. *)
Definition onModelChange (model_ oldModel : option AccountManageState)
    : M State Call unit :=
  match model_, oldModel with
  | Some m, Some o =>
      if bool_decide (chain m = chain o) && negb (isEqual (data m) (data o))
      then modify (set_stateUpdated true)
      else mret tt
  | _, _ => modify (set_stateUpdated false)
  end.

(** What can happen to the model between two runs of the watcher: it
    is replaced by another value (the parent opens or closes the
    dialog, the form emits an updated object, [dismiss]), or the
    object it holds is mutated in place.  The watcher is deep, so its
    callback runs in both cases; after an in-place mutation the new and
    the old value it receives are the same object. *)
Inductive Update :=
| Replace (value : option AccountManageState)
| MutateInPlace (value : AccountManageState).

Definition update (u : Update) : M State Call unit :=
  oldModel ← gets model;
  match u, oldModel with
  | Replace None, None => mret tt
  | Replace value, _ =>
      modify (set_model value) ;; onModelChange value oldModel
  | MutateInPlace value, Some _ =>
      modify (set_model (Some value)) ;;
      onModelChange (Some value) (Some value)
  | MutateInPlace _, None => mret tt
  end.

Fixpoint updates (us : list Update) : M State Call unit :=
  match us with
  | [] => mret tt
  | u :: rest => update u ;; updates rest
  end.

(** The props the template passes to [BigDialog]. *)
Definition display (st : State) : bool := bool_decide (is_Some (model st)).
Definition promptOnClose (st : State) : bool := stateUpdated st.
Definition dialogLoading (loading pending : bool) : bool := loading || pending.
End Script.
End Dialog.

Arguments AccountManageState : clear implicits.
Arguments State : clear implicits.
Arguments Call : clear implicits.
Arguments Update : clear implicits.

End AccountDialog.

(** ** Consecutive turns of the event loop *)

Module EventLoop.
Import Effect.

Section Ticks.
Context {A : Type} `{EqDecision A} {S E : Type}.
Variable cb : A → A → M S E unit.

(** A watcher over consecutive ticks, each with its writes to the source.
    Every tick runs on the state the previous one left, whether or not the
    callback rejected there (the job records the value it read before the
    promise of an [async] callback settles); the calls add up. *)
Fixpoint watchTicks (oldValue : A) (ticks : list (list A)) (st : S) : S * list E :=
  match ticks with
  | [] => (st, [])
  | writes :: rest =>
      match Vue.tick cb oldValue writes st with
      | (st1, l1, _) =>
          match watchTicks (Vue.afterWrites oldValue writes) rest st1 with
          | (st2, l2) => (st2, l1 ++ l2)
          end
      end
  end.

(** The values the job reads at the end of these ticks. *)
Fixpoint endValues (oldValue : A) (ticks : list (list A)) : list A :=
  match ticks with
  | [] => []
  | writes :: rest =>
      let value := Vue.afterWrites oldValue writes in
      value :: endValues value rest
  end.
End Ticks.

End EventLoop.

(** ** The account management dialog: cancel followed by the watcher *)

Module AccountDialogTurns.
Import Effect AccountDialog.

Section Turns.
Context {Data : Type} `{EqDecision Data}.

(** [dismiss] runs in one piece and writes the model by
    [set(model, undefined)].  The watcher of the model runs after the handler
    if that write changed the model, with the values after and before. *)
Definition withModelWatcher (h : M (State Data) (Call Data) unit)
    : M (State Data) (Call Data) unit :=
  λ st,
    match h st with
    | (st1, l1, r) =>
        if decide (model st1 = model st) then (st1, l1, r)
        else
          match onModelChange (model st1) (model st) st1 with
          | (st2, l2, _) => (st2, l1 ++ l2, r)
          end
    end.

(** The event [@cancel] of [BigDialog]. *)
Definition onCancel : M (State Data) (Call Data) unit :=
  withModelWatcher dismiss.
End Turns.

End AccountDialogTurns.

(** ** The vocabulary of the properties *)

(** What the claims say about strings, as propositions. *)
Definition StartsWith (s p : string) : Prop := ∃ q, s = p +:+ q.
Definition EndsWith (s p : string) : Prop := ∃ q, s = q +:+ p.

(** [r] is [s] with its first (leftmost) occurrence of [pat] cut out. *)
Definition FirstOccurrenceRemoved (pat s r : string) : Prop :=
  ∃ pre post,
    s = pre +:+ pat +:+ post ∧ r = pre +:+ post ∧
    ∀ pre' post', s = pre' +:+ pat +:+ post' →
                  String.length pre ≤ String.length pre'.

(** [subtype] is a key of the entry of the global mapping for [eventType]. *)
Definition IsMappedSubtype {V} (globalMapping : gmap string (gmap string V))
    (eventType subtype : string) : Prop :=
  is_Some (globalMapping !! eventType ≫= λ found, found !! subtype).

(** The number of true-to-false transitions of a flag that has the value
    [prev] and is then written the values [writes], one after the other. *)
Fixpoint fallingEdges (prev : bool) (writes : list bool) : nat :=
  match writes with
  | [] => 0
  | b :: rest => (if prev && negb b then 1 else 0) + fallingEdges b rest
  end.


(** ** Sample data *)

Definition subtypes_sample : list HistoryEventTypeForm.ActionDataEntry :=
  [ {| HistoryEventTypeForm.identifier := "fee";
       HistoryEventTypeForm.label := "Fee" |};
    {| HistoryEventTypeForm.identifier := "spend";
       HistoryEventTypeForm.label := "Spend" |};
    {| HistoryEventTypeForm.identifier := "receive";
       HistoryEventTypeForm.label := "Receive" |} ].

Definition mapping_sample : gmap string (gmap string string) :=
  {[ "trade" := {[ "spend" := "trade spend"; "fee" := "trade fee" ]} ]}.

Definition collaborators_ok : DepositsWithdrawalsContent.Collaborators :=
  {| DepositsWithdrawalsContent.fetched := Some [];
     DepositsWithdrawalsContent.refreshed := Some tt;
     DepositsWithdrawalsContent.ignoredOk := Some tt |}.

Definition nft_collaborators_ok : NftBalanceTable.Collaborators :=
  {| NftBalanceTable.fetched := Some [];
     NftBalanceTable.refreshed := Some tt |}.

Definition selection_sample : DepositsWithdrawalsContent.State :=
  let row id :=
    {| DepositsWithdrawalsContent.identifier := id;
       DepositsWithdrawalsContent.category := "deposit";
       DepositsWithdrawalsContent.ignoredInAccounting := false |} in
  {| DepositsWithdrawalsContent.showIgnoredAssets := false;
     DepositsWithdrawalsContent.selected := [row "2"];
     DepositsWithdrawalsContent.assetMovements := [row "1"; row "2"; row "3"] |}.

Definition account_E : AccountDialog.AccountManageState string :=
  {| AccountDialog.mode := AccountDialog.edit;
     AccountDialog.chain := "eth";
     AccountDialog.data := "0xA1" |}.

Definition account_edited : AccountDialog.AccountManageState string :=
  {| AccountDialog.mode := AccountDialog.edit;
     AccountDialog.chain := "eth";
     AccountDialog.data := "0xA12" |}.

(** ** Properties *)

(** *** Strings *)

Lemma app_nil_l (s : string) : "" +:+ s = s.
Proof. reflexivity. Qed.

Lemma app_cons (c : ascii) (s t : string) :
  String c s +:+ t = String c (s +:+ t).
Proof. reflexivity. Qed.

Lemma app_nil_r (s : string) : s +:+ "" = s.
Proof. induction s as [|c s IH]; [done|]. by rewrite app_cons, IH. Qed.

Lemma app_length (s t : string) :
  String.length (s +:+ t) = String.length s + String.length t.
Proof. induction s as [|c s IH]; [done|]. rewrite app_cons. simpl. by rewrite IH. Qed.

Lemma dropChars_app (s t : string) :
  JsString.dropChars (String.length s) (s +:+ t) = t.
Proof. induction s as [|c s IH]; [by destruct t|]. by rewrite app_cons. Qed.

Lemma isPrefix_spec (p s : string) :
  JsString.isPrefix p s = true ↔ StartsWith s p.
Proof.
  revert s. induction p as [|a p IH]; intros s; simpl.
  - split; [intros _; by exists s|done].
  - destruct s as [|b s].
    + split; [done|]. intros [q Hq]. by rewrite app_cons in Hq.
    + rewrite andb_true_iff, Ascii.eqb_eq, IH. split.
      * intros [-> [q ->]]. exists q. by rewrite app_cons.
      * intros [q Hq]. rewrite app_cons in Hq. injection Hq as -> ->.
        split; [done|by exists q].
Qed.

Lemma startsWith_spec (s p : string) :
  JsString.startsWith s p = true ↔ StartsWith s p.
Proof. apply isPrefix_spec. Qed.

Lemma dropChars_split (n : nat) (s : string) :
  n ≤ String.length s →
  ∃ q, s = q +:+ JsString.dropChars n s ∧ String.length q = n.
Proof.
  revert s. induction n as [|n IH]; intros s Hn.
  - exists "". by destruct s.
  - destruct s as [|c s]; simpl in *; [lia|].
    destruct (IH s) as (q & Hq & Hl); [lia|].
    exists (String c q). rewrite app_cons. simpl. by rewrite <-Hq, Hl.
Qed.

Lemma endsWith_spec (s p : string) :
  JsString.endsWith s p = true ↔ EndsWith s p.
Proof.
  unfold JsString.endsWith. rewrite andb_true_iff, Nat.leb_le, String.eqb_eq.
  split.
  - intros [Hle Heq].
    destruct (dropChars_split (String.length s - String.length p) s) as (q & Hq & _);
      [lia|].
    exists q. by rewrite <-Heq.
  - intros [q ->]. rewrite app_length. split; [lia|].
    replace (String.length q + String.length p - String.length p)
      with (String.length q) by lia.
    apply dropChars_app.
Qed.

Lemma replace_first (s pat rep : string) :
  (∃ pre post, s = pre +:+ pat +:+ post) →
  ∃ pre post,
    s = pre +:+ pat +:+ post ∧
    JsString.replace s pat rep = pre +:+ rep +:+ post ∧
    ∀ pre' post', s = pre' +:+ pat +:+ post' →
                  String.length pre ≤ String.length pre'.
Proof.
  induction s as [|c s IH]; intros (pre0 & post0 & H0).
  - destruct pre0; [|by rewrite app_cons in H0].
    rewrite app_nil_l in H0. destruct pat; [|by rewrite app_cons in H0].
    exists "", "". split; [done|]. split; [done|]. intros; simpl; lia.
  - cbn [JsString.replace].
    destruct (JsString.isPrefix pat (String c s)) eqn:Hp.
    + apply isPrefix_spec in Hp as [q Hq].
      exists "", q. rewrite !app_nil_l. split; [done|]. split.
      * by rewrite Hq, dropChars_app.
      * intros; simpl; lia.
    + destruct pre0 as [|c0 pre0].
      { rewrite app_nil_l in H0.
        assert (JsString.isPrefix pat (String c s) = true) as Hp'
          by (apply isPrefix_spec; by exists post0).
        congruence. }
      rewrite app_cons in H0. injection H0 as -> H0.
      destruct IH as (pre & post & Hs & Hr & Hmin); [by exists pre0, post0|].
      exists (String c0 pre), post. rewrite !app_cons, <-Hs, Hr.
      repeat split. intros pre' post' H'.
      destruct pre' as [|c' pre'].
      { rewrite app_nil_l in H'.
        assert (JsString.isPrefix pat (String c0 s) = true) as Hp'
          by (apply isPrefix_spec; by exists post').
        congruence. }
      rewrite app_cons in H'. injection H' as _ H'.
      simpl. apply Hmin in H'. lia.
Qed.

(** *** DefiProtocolIcon *)

Example icon_yearn_v2 : DefiProtocolIcon.icon "yearn_vaults_v2" = "yearn_vaults".
Proof. reflexivity. Qed.

Example icon_makerdao_dsr : DefiProtocolIcon.icon "makerdao_dsr" = "makerdao".
Proof. reflexivity. Qed.

Example icon_first_occurrence : DefiProtocolIcon.icon "a_v2b_v2" = "ab_v2".
Proof. reflexivity. Qed.

Example icon_v2_before_makerdao :
  DefiProtocolIcon.icon "makerdao_x_v2" = "makerdao_x".
Proof. reflexivity. Qed.

Example icon_other : DefiProtocolIcon.icon "aave" = "aave".
Proof. reflexivity. Qed.

(** C9. For every protocol string exactly one of three cases applies: the
    protocol ends with [_v2] and the icon is the protocol with its first
    occurrence of [_v2] removed (whether or not it starts with [makerdao]);
    or it does not end with [_v2], starts with [makerdao], and the icon is
    exactly [makerdao]; or neither, and the icon is the protocol itself. *)
Theorem icon_computed (protocol : string) :
  (EndsWith protocol "_v2" ∧
   FirstOccurrenceRemoved "_v2" protocol (DefiProtocolIcon.icon protocol)) ∨
  (¬ EndsWith protocol "_v2" ∧ StartsWith protocol "makerdao" ∧
   DefiProtocolIcon.icon protocol = "makerdao") ∨
  (¬ EndsWith protocol "_v2" ∧ ¬ StartsWith protocol "makerdao" ∧
   DefiProtocolIcon.icon protocol = protocol).
Proof.
  unfold DefiProtocolIcon.icon.
  destruct (JsString.endsWith protocol "_v2") eqn:He.
  - left. apply endsWith_spec in He. split; [done|].
    destruct He as [q Hq].
    destruct (replace_first protocol "_v2" "") as (pre & post & Hs & Hr & Hmin).
    { exists q, "". by rewrite app_nil_r. }
    exists pre, post. by rewrite Hr.
  - assert (¬ EndsWith protocol "_v2") as Hn.
    { intros H%endsWith_spec. congruence. }
    right. destruct (JsString.startsWith protocol "makerdao") eqn:Hm.
    + left. by apply startsWith_spec in Hm.
    + right. repeat split; [done|]. intros H%startsWith_spec. congruence.
Qed.

(** *** HistoryEventTypeForm *)

Lemma includes_objectKeys {V} (o : gmap string V) (k : string) :
  JsArray.includes (HistoryEventTypeForm.objectKeys o) k = true ↔ is_Some (o !! k).
Proof.
  unfold JsArray.includes, HistoryEventTypeForm.objectKeys.
  rewrite bool_decide_eq_true, list_elem_of_fmap. split.
  - intros ([k' v] & -> & Hin). apply elem_of_map_to_list in Hin. by exists v.
  - intros [v Hv]. exists (k, v). split; [done|]. by apply elem_of_map_to_list.
Qed.

Lemma filter_bool_decide {A} (P : A → Prop) `{∀ x, Decision (P x)} (f : A → bool) (l : list A) :
  (∀ x, f x = true ↔ P x) → List.filter f l = filter P l.
Proof.
  intros Hf. induction l as [|x l IH]; [done|]. simpl.
  rewrite filter_cons, IH. destruct (decide (P x)) as [Hx|Hx].
  - apply Hf in Hx. by rewrite Hx.
  - destruct (f x) eqn:Hfx; [|done]. by apply Hf in Hfx.
Qed.

(** C10. With the empty event type the subtype options are the full subtype
    list.  With a non-empty event type they are the subtypes, in the order
    of the full list, whose identifier is a key of the entry of the global
    mapping for the event type; when the mapping has no entry for it, there
    is no option. *)
Theorem historyEventSubTypeFilteredData_options {V}
    (eventType : string)
    (allData : list HistoryEventTypeForm.ActionDataEntry)
    (globalMapping : gmap string (gmap string V)) :
  HistoryEventTypeForm.historyEventSubTypeFilteredData "" allData globalMapping
  = allData
  ∧ (eventType ≠ "" →
     HistoryEventTypeForm.historyEventSubTypeFilteredData
       eventType allData globalMapping
     = filter (λ d, IsMappedSubtype globalMapping eventType
                      (HistoryEventTypeForm.identifier d)) allData)
  ∧ (eventType ≠ "" → globalMapping !! eventType = None →
     HistoryEventTypeForm.historyEventSubTypeFilteredData
       eventType allData globalMapping = []).
Proof.
  unfold HistoryEventTypeForm.historyEventSubTypeFilteredData, IsMappedSubtype.
  split; [done|].
  split; intros Hne; rewrite bool_decide_eq_false_2 by done.
  - apply filter_bool_decide. intros d.
    destruct (globalMapping !! eventType) as [found|] eqn:Hg; simpl.
    + apply includes_objectKeys.
    + unfold JsArray.includes. rewrite bool_decide_eq_true.
      split; [by intros ?%elem_of_nil|by intros [? ?]].
  - intros ->. induction allData as [|d l IH]; [done|]. simpl. by rewrite IH.
Qed.

Example subtypes_of_trade :
  HistoryEventTypeForm.historyEventSubTypeFilteredData
    "trade" subtypes_sample mapping_sample
  = [ {| HistoryEventTypeForm.identifier := "fee";
         HistoryEventTypeForm.label := "Fee" |};
      {| HistoryEventTypeForm.identifier := "spend";
         HistoryEventTypeForm.label := "Spend" |} ].
Proof. by vm_compute. Qed.

Lemma historyEventSubTypeFilteredData_options_witness :
  HistoryEventTypeForm.historyEventSubTypeFilteredData
    "staking" subtypes_sample mapping_sample = [].
Proof.
  apply (historyEventSubTypeFilteredData_options "staking" subtypes_sample mapping_sample).
  - discriminate.
  - by vm_compute.
Defined.

(** *** Table views: columns *)

(** C5. The deposits/withdrawals table has 7 columns on its own page and 6
    when the view is scoped to a location ([locationOverview] not empty):
    exactly the [location] column is left out, the others keep their order.
    The NFT table has its 3 base columns and one more for each percentage
    column that is enabled. *)
Theorem tableHeaders_columns
    (t : string → string) (locationOverview : string)
    (t' : string → list (string * string) → string)
    (currencySymbol group : string)
    (visibleColumns : list NftBalanceTable.TableColumn) :
  length (DepositsWithdrawalsContent.tableHeaders t locationOverview)
  = (if decide (locationOverview = "") then 7 else 6)
  ∧ DataTable.key <$> DepositsWithdrawalsContent.tableHeaders t ""
    = ["ignoredInAccounting"; "location"; "category"; "asset"; "amount";
       "fee"; "timestamp"]
  ∧ DataTable.key <$> DepositsWithdrawalsContent.tableHeaders t locationOverview
    = (if decide (locationOverview = "")
       then DataTable.key <$> DepositsWithdrawalsContent.tableHeaders t ""
       else filter (λ k, k ≠ "location")
              (DataTable.key <$> DepositsWithdrawalsContent.tableHeaders t ""))
  ∧ length (NftBalanceTable.tableHeaders t' currencySymbol group visibleColumns)
    = 3 + length (filter (λ c, c ∈ visibleColumns)
                    [NftBalanceTable.PERCENTAGE_OF_TOTAL_NET_VALUE;
                     NftBalanceTable.PERCENTAGE_OF_TOTAL_CURRENT_GROUP]).
Proof.
  repeat split.
  - unfold DepositsWithdrawalsContent.tableHeaders, DepositsWithdrawalsContent.mainPage.
    destruct (decide (locationOverview = "")) as [->|Hne].
    + done.
    + by rewrite bool_decide_eq_false_2.
  - unfold DepositsWithdrawalsContent.tableHeaders, DepositsWithdrawalsContent.mainPage.
    destruct (decide (locationOverview = "")) as [->|Hne].
    + done.
    + by rewrite bool_decide_eq_false_2.
  - unfold NftBalanceTable.tableHeaders, JsArray.includes.
    rewrite !filter_cons, filter_nil.
    do 2 case_bool_decide; repeat case_decide; done.
Qed.

Example nft_headers_both :
  DataTable.key <$>
    NftBalanceTable.tableHeaders (λ k _, k) "EUR" "NFT"
      [NftBalanceTable.PERCENTAGE_OF_TOTAL_CURRENT_GROUP;
       NftBalanceTable.PERCENTAGE_OF_TOTAL_NET_VALUE]
  = ["name"; "priceInAsset"; "usdPrice"; "percentageOfTotalNetValue";
     "percentageOfTotalCurrentGroup"].
Proof. by vm_compute. Qed.

(** *** Table views: mount and the loading flag *)

(** Running a handler: the monad's operations unfold to pairs. *)
Ltac run :=
  cbv [Effect.state_of Effect.calls_of Effect.outcome_of
       mbind mret Effect.M_bind Effect.M_ret Effect.bind Effect.ret
       Effect.gets Effect.modify Effect.call Effect.await Effect.assert
       Vue.tick Vue.runWatcher].

(** C6. On mount each table view calls the fetch function once, first, and
    then, once the fetch has settled, the refresh side channel
    ([refreshAssetMovements], [refreshNonFungibleBalances]); nothing else is
    called.  (When the fetch rejects, the hook stops there.) *)
Theorem onMounted_fetch_then_refresh
    (locationOverview : string) (toSnakeCase : string → string)
    (env : DepositsWithdrawalsContent.Collaborators)
    (st : DepositsWithdrawalsContent.State)
    (env' : NftBalanceTable.Collaborators) (st' : NftBalanceTable.State) :
  let calls := Effect.calls_of
      (DepositsWithdrawalsContent.onMounted locationOverview toSnakeCase env st) in
  let calls' := Effect.calls_of (NftBalanceTable.onMounted env' st') in
  calls
  = DepositsWithdrawalsContent.fetchAssetMovements
      (DepositsWithdrawalsContent.pageParams locationOverview toSnakeCase st)
    :: match DepositsWithdrawalsContent.fetched env with
       | Some _ => [DepositsWithdrawalsContent.refreshAssetMovements None]
       | None => []
       end
  ∧ length (List.filter DepositsWithdrawalsContent.isFetch calls) = 1
  ∧ calls'
    = NftBalanceTable.fetchNonFungibleBalances "exclude"
      :: match NftBalanceTable.fetched env' with
         | Some _ => [NftBalanceTable.refreshNonFungibleBalances None]
         | None => []
         end
  ∧ length (List.filter NftBalanceTable.isFetch calls') = 1.
Proof.
  unfold DepositsWithdrawalsContent.onMounted, NftBalanceTable.onMounted,
    DepositsWithdrawalsContent.fetchData, NftBalanceTable.fetchData.
  run.
  destruct (DepositsWithdrawalsContent.fetched env),
    (NftBalanceTable.fetched env'); simpl; done.
Qed.

(** The loading flag is false, goes to true and back to false within one
    tick: it made a true-to-false transition, the watcher's job finds the
    value it saw at its previous run, and neither view fetches. *)
Lemma loading_toggle_within_tick_no_fetch :
  fallingEdges false [true; false] = 1
  ∧ Effect.calls_of
      (DepositsWithdrawalsContent.loadingTick "" (λ s, s) collaborators_ok
         false [true; false] DepositsWithdrawalsContent.setup) = []
  ∧ Effect.calls_of
      (NftBalanceTable.loadingTick nft_collaborators_ok false [true; false]
         {| NftBalanceTable.balances := [] |}) = [].
Proof. by vm_compute. Qed.

Example loading_true_to_false_fetches :
  Effect.calls_of
    (NftBalanceTable.loadingTick nft_collaborators_ok true [false; true; false]
       {| NftBalanceTable.balances := [] |})
  = [NftBalanceTable.fetchNonFungibleBalances "exclude"].
Proof. by vm_compute. Qed.

(** C1 (amended). In each table view, a tick at whose end the watcher of the
    section's loading flag finds the flag false, having seen it true at its
    previous run, makes exactly one fetch, however often the flag toggled
    within the tick; every other tick makes none through the watcher. *)
Theorem loading_watcher_fetches_once
    (locationOverview : string) (toSnakeCase : string → string)
    (env : DepositsWithdrawalsContent.Collaborators)
    (st : DepositsWithdrawalsContent.State)
    (env' : NftBalanceTable.Collaborators) (st' : NftBalanceTable.State)
    (wasLoading : bool) (writes : list bool) :
  let isLoading := Vue.afterWrites wasLoading writes in
  Effect.calls_of
    (DepositsWithdrawalsContent.loadingTick locationOverview toSnakeCase env
       wasLoading writes st)
  = (if wasLoading && negb isLoading
     then [DepositsWithdrawalsContent.fetchAssetMovements
             (DepositsWithdrawalsContent.pageParams locationOverview toSnakeCase st)]
     else [])
  ∧ Effect.calls_of (NftBalanceTable.loadingTick env' wasLoading writes st')
    = (if wasLoading && negb isLoading
       then [NftBalanceTable.fetchNonFungibleBalances "exclude"]
       else []).
Proof.
  intros isLoading.
  unfold DepositsWithdrawalsContent.loadingTick, NftBalanceTable.loadingTick,
    DepositsWithdrawalsContent.onLoadingChange, NftBalanceTable.onLoadingChange,
    DepositsWithdrawalsContent.fetchData, NftBalanceTable.fetchData.
  run. fold isLoading.
  destruct wasLoading, isLoading; simpl;
    destruct (DepositsWithdrawalsContent.fetched env),
      (NftBalanceTable.fetched env'); done.
Qed.

(** *** Deposits and withdrawals: the switch and the selection *)

(** C7. Toggling the "show ignored assets" switch flips the ref, the
    [excludeIgnoredAssets] flag of [extraParams] is the negation of the new
    switch state, and exactly one fetch is made, with that flag in its
    payload. *)
Theorem toggle_showIgnoredAssets_refetches_once
    (locationOverview : string) (toSnakeCase : string → string)
    (env : DepositsWithdrawalsContent.Collaborators)
    (st : DepositsWithdrawalsContent.State) :
  let on := negb (DepositsWithdrawalsContent.showIgnoredAssets st) in
  let r := DepositsWithdrawalsContent.handle locationOverview toSnakeCase env
             (DepositsWithdrawalsContent.SwitchShowIgnoredAssets on) st in
  DepositsWithdrawalsContent.showIgnoredAssets (Effect.state_of r) = on
  ∧ DepositsWithdrawalsContent.excludeIgnoredAssets
      (DepositsWithdrawalsContent.extraParams (Effect.state_of r)) = negb on
  ∧ ∃ payload,
      Effect.calls_of r = [DepositsWithdrawalsContent.fetchAssetMovements payload]
      ∧ DepositsWithdrawalsContent.excludeIgnoredAssets
          (DepositsWithdrawalsContent.extra payload) = negb on
      ∧ DepositsWithdrawalsContent.request payload
        = DepositsWithdrawalsContent.requestParams locationOverview toSnakeCase.
Proof.
  intros on r. subst on r.
  unfold DepositsWithdrawalsContent.handle,
    DepositsWithdrawalsContent.refetchOnChange,
    DepositsWithdrawalsContent.fetchData.
  run.
  destruct st as [shown sel data]. simpl.
  destruct (decide _) as [Heq|_].
  { exfalso. unfold DepositsWithdrawalsContent.pageParams,
      DepositsWithdrawalsContent.extraParams in Heq.
    simpl in Heq. by destruct shown. }
  destruct (DepositsWithdrawalsContent.fetched env); simpl;
    (split; [done|]; split; [done|]; eexists; done).
Qed.

Example switch_same_value_no_fetch :
  Effect.calls_of
    (DepositsWithdrawalsContent.handle "" (λ s, s) collaborators_ok
       (DepositsWithdrawalsContent.SwitchShowIgnoredAssets false)
       DepositsWithdrawalsContent.setup) = [].
Proof. by vm_compute. Qed.



Example select_two_rows :
  DepositsWithdrawalsContent.value_get ""
    (Effect.state_of
       (DepositsWithdrawalsContent.handle "" (λ s, s) collaborators_ok
          (DepositsWithdrawalsContent.UpdateValue (Some ["3"; "1"; "9"]))
          selection_sample))
  = Some ["1"; "3"].
Proof. by vm_compute. Qed.


(** *** The account management dialog *)

(** Taking apart what is known of the calls a handler made. *)
Ltac in_calls :=
  repeat match goal with
    | H : ∃ _, _ |- _ => destruct H
    | H : _ ∧ _ |- _ => destruct H
    | H : _ ∈ _ |- _ => apply list_elem_of_In in H; simpl in H
    | H : _ ∨ _ |- _ => destruct H
    | H : False |- _ => destruct H
    | H : is_Some None |- _ => destruct H as [? ?]
    | H : _ = _ |- _ => discriminate H
    end.

Section DialogProperties.
Context {Data : Type} `{EqDecision Data}.
Import AccountDialog.

Implicit Types (st : State Data) (s : AccountManageState Data).

(** What a confirm does, case by case.  [st1] is the state in which the
    validation settles, [st2] the one in which the save action settles. *)
Lemma confirm_cases (validateResult : option bool)
    (saveResult : AccountManageState Data → option bool)
    (duringValidate duringSave : State Data → State Data) st :
  let r := confirm validateResult saveResult duringValidate duringSave st in
  let st1 := duringValidate (set_errorMessages [] st) in
  let st2 := duringSave st1 in
  match model st with
  | None => r = (st, [], None)
  | Some _ =>
      match validateResult with
      | None => r = (st1, [validate None], None)
      | Some false => r = (st1, [validate (Some false)], Some tt)
      | Some true =>
          match model st1 with
          | None => r = (st1, [validate (Some true)], None)
          | Some s1 =>
              match saveResult s1 with
              | None => r = (st2, [validate (Some true); save s1 None], None)
              | Some false =>
                  r = (st2, [validate (Some true); save s1 (Some false)], Some tt)
              | Some true =>
                  r = (set_model None st2,
                       [validate (Some true); save s1 (Some true); emit_complete],
                       Some tt)
              end
          end
      end
  end.
Proof.
  unfold confirm, isDefined_form, dismiss. run.
  destruct st as [[s|] dirty errs]; simpl; [|done].
  destruct validateResult as [[|]|]; simpl; [|done..].
  destruct (model (duringValidate _)) as [s1|]; simpl; [|done].
  destruct (saveResult s1) as [[|]|]; done.
Qed.

(** C2. The save action returns success when the dialog is open, the form
    is valid and [save], called with the model, resolves to true.  A
    confirm emits [complete] exactly then, and then it closes the dialog
    (the model becomes undefined).  When the save action returns false, the
    confirm writes nothing after it: the state is the one in which the save
    settled, nothing is emitted; if nothing else happened meanwhile, the
    model and the dirty flag are as before and the dialog remains open, and
    the dialog is closed after the confirm exactly when the save action
    returned success. *)
Theorem confirm_closes_iff_saved (validateResult : option bool)
    (saveResult : AccountManageState Data → option bool)
    (duringValidate duringSave : State Data → State Data) st :
  let r := confirm validateResult saveResult duringValidate duringSave st in
  let st1 := duringValidate (set_errorMessages [] st) in
  let saved :=
    is_Some (model st) ∧ validateResult = Some true
    ∧ ∃ s1, model st1 = Some s1 ∧ saveResult s1 = Some true in
  let r0 := confirm validateResult saveResult id id st in
  (emit_complete ∈ Effect.calls_of r ↔ saved)
  ∧ (saved →
     model (Effect.state_of r) = None
     ∧ Effect.state_of r = set_model None (duringSave st1)
     ∧ Effect.outcome_of r = Some tt)
  ∧ (∀ s1, is_Some (model st) → validateResult = Some true →
           model st1 = Some s1 → saveResult s1 = Some false →
           Effect.state_of r = duringSave st1
           ∧ Effect.calls_of r = [validate (Some true); save s1 (Some false)]
           ∧ Effect.outcome_of r = Some tt)
  ∧ (∀ s, model st = Some s →
          (model (Effect.state_of r0) = None
           ∧ emit_complete ∈ Effect.calls_of r0
           ↔ validateResult = Some true ∧ saveResult s = Some true)
          ∧ (model (Effect.state_of r0) = None
             ↔ validateResult = Some true ∧ saveResult s = Some true)
          ∧ (validateResult = Some true → saveResult s = Some false →
             model (Effect.state_of r0) = Some s
             ∧ stateUpdated (Effect.state_of r0) = stateUpdated st
             ∧ emit_complete ∉ Effect.calls_of r0)).
Proof.
  intros r st1 saved r0.
  pose proof (confirm_cases validateResult saveResult duringValidate duringSave st)
    as Hr.
  pose proof (confirm_cases validateResult saveResult id id st) as Hr0.
  fold r in Hr. fold r0 in Hr0. simpl in Hr, Hr0. fold st1 in Hr.
  subst saved. split; [|split; [|split]].
  - destruct (model st) as [s|] eqn:Hm;
      [destruct validateResult as [[|]|];
       [destruct (model st1) as [s1|] eqn:Hm1;
        [destruct (saveResult s1) as [[|]|] eqn:Hs|]|..]|];
      rewrite Hr; unfold Effect.calls_of; simpl;
      (split; [intros Hin; in_calls|intros (Ho & Hv & s1' & Hm1' & Hs'); in_calls]);
      try congruence.
    + split; [done|]. split; [done|]. by exists s1.
    + apply list_elem_of_In. simpl. tauto.
  - intros ([s Hm] & -> & s1 & Hm1 & Hs). rewrite Hm, Hm1, Hs in Hr.
    rewrite Hr. done.
  - intros s1 [s Hm] -> Hm1 Hs. rewrite Hm, Hm1, Hs in Hr. rewrite Hr. done.
  - intros s Hm. rewrite !Hm in Hr0.
    destruct validateResult as [[|]|]; [destruct (saveResult s) as [[|]|]|..];
      rewrite Hr0; unfold Effect.state_of, Effect.calls_of; simpl; rewrite ?Hm;
      repeat split; intros; in_calls; try done; try congruence;
      rewrite ?list_elem_of_In; simpl; eauto.
    intros [?|[?|[]]]; discriminate.
Qed.

(** C4. When the validation of the child form reports the form invalid,
    a confirm does not call the save action and emits nothing; it writes
    nothing after the validation, so the state is the one in which the
    validation settled.  If nothing else happened meanwhile, the model is as
    it was: the dialog remains open, with its dirty flag. *)
Theorem confirm_invalid_does_not_save
    (saveResult : AccountManageState Data → option bool)
    (duringValidate duringSave : State Data → State Data) st :
  let r := confirm (Some false) saveResult duringValidate duringSave st in
  let r0 := confirm (Some false) saveResult id duringSave st in
  (∀ s success, save s success ∉ Effect.calls_of r)
  ∧ (emit_complete ∉ Effect.calls_of r)
  ∧ Effect.state_of r
    = match model st with
      | Some _ => duringValidate (set_errorMessages [] st)
      | None => st
      end
  ∧ model (Effect.state_of r0) = model st
  ∧ display (Effect.state_of r0) = display st
  ∧ stateUpdated (Effect.state_of r0) = stateUpdated st.
Proof.
  intros r r0.
  pose proof (confirm_cases (Some false) saveResult duringValidate duringSave st)
    as Hr.
  pose proof (confirm_cases (Some false) saveResult id duringSave st) as Hr0.
  fold r in Hr. fold r0 in Hr0. simpl in Hr, Hr0. unfold display.
  destruct (model st) as [s|] eqn:Hm; rewrite Hr, Hr0;
    unfold Effect.state_of, Effect.calls_of; simpl; rewrite ?Hm;
    repeat split; intros; try intros ?; in_calls; done.
Qed.

(** C3 (amended). A change of the model turns the dirty flag from false to
    true only if it replaces the model by a value with the same chain whose
    data differs structurally from the data of the value it replaces, the
    previous value of the model; for the first change after the dialog was
    opened with the entity [E] that previous value is [E].  The flag is what
    the dialog passes as [prompt-on-close], and it never blocks saving:
    whatever the flag is, a confirm on an open dialog with a valid form calls
    the save action with the model. *)
Theorem stateUpdated_on_data_change
    (E : AccountManageState Data) (u : Update Data) st
    (validateResult : option bool)
    (saveResult : AccountManageState Data → option bool)
    (duringValidate duringSave : State Data → State Data) :
  (stateUpdated st = false →
   stateUpdated (Effect.state_of (update u st)) = true →
   ∃ value old, u = Replace (Some value) ∧ model st = Some old
                ∧ chain value = chain old ∧ data value ≠ data old)
  ∧ (stateUpdated (Effect.state_of (updates [Replace (Some E); u] setup)) = true →
     ∃ value, u = Replace (Some value)
              ∧ chain value = chain E ∧ data value ≠ data E)
  ∧ promptOnClose st = stateUpdated st
  ∧ (∀ s1, is_Some (model st) → validateResult = Some true →
           model (duringValidate (set_errorMessages [] st)) = Some s1 →
           save s1 (saveResult s1)
           ∈ Effect.calls_of
               (confirm validateResult saveResult duringValidate duringSave st)).
Proof.
  assert (∀ st', stateUpdated st' = false →
    stateUpdated (Effect.state_of (update u st')) = true →
    ∃ value old, u = Replace (Some value) ∧ model st' = Some old
                 ∧ chain value = chain old ∧ data value ≠ data old) as Hstep.
  { intros st' Hclean Hdirty.
    destruct st' as [old dirty errs]. simpl in Hclean. subst dirty.
    unfold update, onModelChange, isEqual in Hdirty. revert Hdirty. run.
    destruct u as [[value|]|value], old as [old|]; simpl; try done.
    - destruct (bool_decide (chain value = chain old)) eqn:Hc; simpl; [|done].
      destruct (bool_decide (data value = data old)) eqn:Hd; simpl; [done|].
      intros _. exists value, old.
      apply bool_decide_eq_true in Hc. apply bool_decide_eq_false in Hd. done.
    - rewrite !bool_decide_eq_true_2 by done. done. }
  split; [apply Hstep|]. split; [|split; [done|]].
  - intros Hdirty.
    destruct (Hstep {| model := Some E; stateUpdated := false;
                       errorMessages := [] |} eq_refl)
      as (value & old & -> & Hold & Hc & Hd).
    + revert Hdirty. cbn [updates]. unfold update at 2, onModelChange. run.
      simpl. change (set_stateUpdated false (set_model (Some E) setup))
        with {| model := Some E; stateUpdated := false;
                errorMessages := @nil (string * string) |}.
      destruct (update u _) as [[st' l] [[]|]]; done.
    + simpl in Hold. injection Hold as <-. by exists value.
  - intros s1 [s Hm] -> Hm1.
    pose proof (confirm_cases (Some true) saveResult duringValidate duringSave st)
      as Hr.
    simpl in Hr. rewrite Hm, Hm1 in Hr.
    destruct (saveResult s1) as [[|]|]; rewrite Hr; unfold Effect.calls_of; simpl;
      apply list_elem_of_In; simpl; tauto.
Qed.
End DialogProperties.

(** The dialog is opened in edit mode with [account_E], a field is changed
    and then changed back: the current data equals the initial snapshot, and
    the flag, last set by the change that restored the data, is true.  When
    the first change mutates the object in place, the flag is still false
    after it, and it is the change that restores the data of [account_E]
    that turns it to true. *)
Lemma stateUpdated_after_edit_undone :
  let st := Effect.state_of
      (AccountDialog.updates
         [AccountDialog.Replace (Some account_E);
          AccountDialog.Replace (Some account_edited);
          AccountDialog.Replace (Some account_E)]
         AccountDialog.setup) in
  let st1 := Effect.state_of
      (AccountDialog.updates
         [AccountDialog.Replace (Some account_E);
          AccountDialog.MutateInPlace account_edited]
         AccountDialog.setup) in
  let st2 := Effect.state_of
      (AccountDialog.update (AccountDialog.Replace (Some account_E)) st1) in
  AccountDialog.model st = Some account_E
  ∧ AccountDialog.stateUpdated st = true
  ∧ AccountDialog.promptOnClose st = true
  ∧ AccountDialog.stateUpdated st1 = false
  ∧ AccountDialog.model st2 = Some account_E
  ∧ AccountDialog.stateUpdated st2 = true.
Proof. by vm_compute. Qed.

Example stateUpdated_not_set_by_mutation :
  AccountDialog.stateUpdated
    (Effect.state_of
       (AccountDialog.updates
          [AccountDialog.Replace (Some account_E);
           AccountDialog.MutateInPlace account_edited]
          AccountDialog.setup)) = false.
Proof. by vm_compute. Qed.

Lemma stateUpdated_on_data_change_witness :
  ∃ value,
    AccountDialog.Replace (Some account_edited) = AccountDialog.Replace (Some value)
    ∧ AccountDialog.chain value = AccountDialog.chain account_E
    ∧ AccountDialog.data value ≠ AccountDialog.data account_E.
Proof.
  pose proof (stateUpdated_on_data_change account_E
                (AccountDialog.Replace (Some account_edited))
                AccountDialog.setup
                (Some true) (λ _, Some true) id id) as (_ & Hfirst & _).
  apply Hfirst. reflexivity.
Defined.

Example confirm_saved :
  AccountDialog.confirm (Some true) (λ _, Some true) id id
    {| AccountDialog.model := Some account_edited;
       AccountDialog.stateUpdated := true;
       AccountDialog.errorMessages := [("address", "invalid")] |}
  = ({| AccountDialog.model := None;
        AccountDialog.stateUpdated := true;
        AccountDialog.errorMessages := [] |},
     [AccountDialog.validate (Some true);
      AccountDialog.save account_edited (Some true);
      AccountDialog.emit_complete],
     Some tt).
Proof. by vm_compute. Qed.

(** The dialog is dismissed while the validation is pending: the confirm
    finds no model after it and rejects, with the validation as its only
    call. *)
Example confirm_dismissed_during_validation :
  AccountDialog.confirm (Some true) (λ _, Some true)
    (AccountDialog.set_model None) id
    {| AccountDialog.model := Some account_edited;
       AccountDialog.stateUpdated := true;
       AccountDialog.errorMessages := [] |}
  = ({| AccountDialog.model := None;
        AccountDialog.stateUpdated := true;
        AccountDialog.errorMessages := [] |},
     [AccountDialog.validate (Some true)],
     None).
Proof. by vm_compute. Qed.

Lemma confirm_closes_iff_saved_witness :
  let r := AccountDialog.confirm (Some true) (λ _, Some true) id id
             {| AccountDialog.model := Some account_edited;
                AccountDialog.stateUpdated := true;
                AccountDialog.errorMessages := [] |} in
  AccountDialog.model (Effect.state_of r) = None
  ∧ AccountDialog.emit_complete ∈ Effect.calls_of r
  ∧ Effect.outcome_of r = Some tt.
Proof.
  pose proof (confirm_closes_iff_saved (Some true) (λ _, Some true) id id
                {| AccountDialog.model := Some account_edited;
                   AccountDialog.stateUpdated := true;
                   AccountDialog.errorMessages := [] |}) as (Hemit & Hclose & _).
  assert (is_Some (Some account_edited) ∧ Some true = Some true
          ∧ ∃ s1, Some account_edited = Some s1 ∧ Some true = Some true) as Hsaved.
  { split; [by eexists|]. split; [done|]. by exists account_edited. }
  destruct (Hclose Hsaved) as (Hmodel & _ & Hout).
  split; [exact Hmodel|]. split; [exact (proj2 Hemit Hsaved)|exact Hout].
Defined.

(** ** Further properties of the components *)

(** *** DefiProtocolIcon *)

Lemma replace_version_suffix (base : string) :
  (∀ pre post, base ≠ pre +:+ "_v2" +:+ post) →
  JsString.replace (base +:+ "_v2") "_v2" "" = base.
Proof.
  induction base as [|c base IH]; intros Hno; [done|].
  rewrite app_cons. cbn [JsString.replace].
  destruct (JsString.isPrefix "_v2" (String c (base +:+ "_v2"))) eqn:Hp.
  - exfalso. apply isPrefix_spec in Hp as [q Hq].
    rewrite !app_cons, app_nil_l in Hq. injection Hq as -> Hq.
    destruct base as [|c1 base]; [discriminate Hq|].
    rewrite app_cons in Hq. injection Hq as -> Hq.
    destruct base as [|c2 base]; [discriminate Hq|].
    rewrite app_cons in Hq. injection Hq as -> Hq.
    by apply (Hno "" base).
  - f_equal. apply IH. intros pre post ->. by apply (Hno (String c pre) post).
Qed.

(** X1. A protocol named [base_v2], where [base] itself holds no [_v2],
    gets the icon of [base]: the version suffix is what is cut off. *)
Theorem icon_strips_version_suffix (base : string) :
  (∀ pre post, base ≠ pre +:+ "_v2" +:+ post) →
  DefiProtocolIcon.icon (base +:+ "_v2") = base.
Proof.
  intros Hno. unfold DefiProtocolIcon.icon.
  assert (JsString.endsWith (base +:+ "_v2") "_v2" = true) as ->
    by (apply endsWith_spec; by exists base).
  by apply replace_version_suffix.
Qed.

Lemma no_version_in_short (s : string) :
  String.length s < 3 → ∀ pre post, s ≠ pre +:+ "_v2" +:+ post.
Proof.
  intros Hlen pre post ->. rewrite !app_length in Hlen. simpl in Hlen. lia.
Qed.

Lemma icon_strips_version_suffix_witness :
  DefiProtocolIcon.icon ("v1" +:+ "_v2") = "v1".
Proof.
  apply (icon_strips_version_suffix "v1").
  apply no_version_in_short. simpl. lia.
Defined.

(** X2. The icon is the protocol itself exactly for the protocols that do
    not end with [_v2] and that, if they start with [makerdao], are
    [makerdao]. *)
Theorem icon_unchanged_iff (protocol : string) :
  DefiProtocolIcon.icon protocol = protocol
  ↔ ¬ EndsWith protocol "_v2"
    ∧ (StartsWith protocol "makerdao" → protocol = "makerdao").
Proof.
  unfold DefiProtocolIcon.icon.
  destruct (JsString.endsWith protocol "_v2") eqn:He.
  - apply endsWith_spec in He. split; [|by intros [? _]].
    intros Heq. exfalso. destruct He as [q Hq].
    destruct (replace_first protocol "_v2" "") as (pre & post & Hs & Hr & _).
    { exists q, "". by rewrite app_nil_r. }
    rewrite Hr, app_nil_l in Heq.
    apply (f_equal String.length) in Heq. rewrite Hs, !app_length in Heq.
    simpl in Heq. lia.
  - assert (¬ EndsWith protocol "_v2") as Hn
      by (intros H%endsWith_spec; congruence).
    destruct (JsString.startsWith protocol "makerdao") eqn:Hm.
    + apply startsWith_spec in Hm. split; [by intros <-|]. intros [_ Hp].
      by rewrite (Hp Hm).
    + split; [|done]. intros _. split; [done|].
      intros H%startsWith_spec. congruence.
Qed.

(** *** HistoryEventTypeForm *)

Lemma List_filter_sublist {A} (f : A → bool) (l : list A) :
  List.filter f l `sublist_of` l.
Proof.
  induction l as [|x l IH]; simpl; [constructor|].
  destruct (f x); by constructor.
Qed.

Lemma List_filter_idemp {A} (f : A → bool) (l : list A) :
  List.filter f (List.filter f l) = List.filter f l.
Proof.
  induction l as [|x l IH]; simpl; [done|].
  destruct (f x) eqn:Hx; simpl; rewrite ?Hx, IH; done.
Qed.

(** X3. Whatever the event type and the mapping, the subtype options are
    taken from the full subtype list, each at most as often as it stands
    there and in the same order; filtering the options once more, for the
    same event type, changes nothing. *)
Theorem subtype_options_sublist {V} (eventType : string)
    (allData : list HistoryEventTypeForm.ActionDataEntry)
    (globalMapping : gmap string (gmap string V)) :
  let options := HistoryEventTypeForm.historyEventSubTypeFilteredData
                   eventType allData globalMapping in
  options `sublist_of` allData
  ∧ HistoryEventTypeForm.historyEventSubTypeFilteredData
      eventType options globalMapping = options.
Proof.
  unfold HistoryEventTypeForm.historyEventSubTypeFilteredData.
  case_bool_decide; [done|]. split.
  - apply List_filter_sublist.
  - apply List_filter_idemp.
Qed.

(** X4. The subtype options depend on the keys of the global mapping only:
    replacing what is stored under the keys leaves the options as they are. *)
Theorem subtype_options_keys_only {V W} (g : V → W) (eventType : string)
    (allData : list HistoryEventTypeForm.ActionDataEntry)
    (globalMapping : gmap string (gmap string V)) :
  HistoryEventTypeForm.historyEventSubTypeFilteredData
    eventType allData ((λ found : gmap string V, g <$> found) <$> globalMapping)
  = HistoryEventTypeForm.historyEventSubTypeFilteredData
      eventType allData globalMapping.
Proof.
  unfold HistoryEventTypeForm.historyEventSubTypeFilteredData.
  case_bool_decide; [done|]. rewrite lookup_fmap.
  destruct (globalMapping !! eventType) as [found|]; simpl; [|done].
  apply List.filter_ext. intros d. apply eq_true_iff_eq.
  rewrite !includes_objectKeys, lookup_fmap. apply fmap_is_Some.
Qed.

(** *** Deposits and withdrawals: the selection as identifiers *)

Lemma map_List_filter {A B} (f : A → B) (p : B → bool) (l : list A) :
  map f (List.filter (λ x, p (f x)) l) = List.filter p (map f l).
Proof.
  induction l as [|x l IH]; simpl; [done|].
  destruct (p (f x)); simpl; by rewrite IH.
Qed.

(** X5. Writing identifiers to the table's [v-model] and reading it back,
    on the view's own page, gives the identifiers of the rows of the
    current page that were written, in the order of the page: identifiers
    of no row of the page are dropped.  In a location overview the
    [v-model] reads as undefined. *)
Theorem value_set_then_get (locationOverview : string)
    (values : list string) (st : DepositsWithdrawalsContent.State) :
  DepositsWithdrawalsContent.value_get locationOverview
    (Effect.state_of (DepositsWithdrawalsContent.value_set (Some values) st))
  = if bool_decide (locationOverview = "")
    then Some (List.filter (JsArray.includes values)
                 (DepositsWithdrawalsContent.identifier <$>
                    DepositsWithdrawalsContent.assetMovements st))
    else None.
Proof.
  unfold DepositsWithdrawalsContent.value_get, DepositsWithdrawalsContent.value_set,
    DepositsWithdrawalsContent.mainPage.
  run. simpl. case_bool_decide; [|done]. simpl. f_equal.
  apply (map_List_filter DepositsWithdrawalsContent.identifier (JsArray.includes values)).
Qed.

(** X6. On the view's own page, writing back to the [v-model] what it reads
    leaves the selection made through it as it is. *)
Theorem value_write_back (locationOverview : string)
    (values : option (list string)) (st : DepositsWithdrawalsContent.State) :
  DepositsWithdrawalsContent.mainPage locationOverview = true →
  let st' := Effect.state_of (DepositsWithdrawalsContent.value_set values st) in
  Effect.state_of
    (DepositsWithdrawalsContent.value_set
       (DepositsWithdrawalsContent.value_get locationOverview st') st')
  = st'.
Proof.
  intros Hmain.
  unfold DepositsWithdrawalsContent.value_get, DepositsWithdrawalsContent.value_set.
  rewrite Hmain. run. simpl.
  unfold DepositsWithdrawalsContent.set_selected. simpl. f_equal.
  apply List.filter_ext_in. intros e He.
  unfold JsArray.includes. apply eq_true_iff_eq.
  rewrite bool_decide_eq_true, list_elem_of_fmap.
  set (chosen := λ e', match values with
                       | Some vs => bool_decide (DepositsWithdrawalsContent.identifier e' ∈ vs)
                       | None => false
                       end).
  change (match values with Some vs => _ | None => _ end) with (chosen e).
  assert (∀ a b, DepositsWithdrawalsContent.identifier a
                 = DepositsWithdrawalsContent.identifier b →
                 chosen a = chosen b) as Hid.
  { intros a b Hab. unfold chosen. by rewrite Hab. }
  split.
  - intros (e' & Hee' & Hin). apply list_elem_of_In, filter_In in Hin as [_ Hc].
    by rewrite (Hid e e' Hee').
  - intros Hc. exists e. split; [done|].
    apply list_elem_of_In, filter_In. done.
Qed.

Lemma value_write_back_witness :
  let st' := Effect.state_of
      (DepositsWithdrawalsContent.value_set (Some ["3"; "1"; "9"]) selection_sample) in
  Effect.state_of
    (DepositsWithdrawalsContent.value_set
       (DepositsWithdrawalsContent.value_get "" st') st')
  = st'.
Proof.
  apply (value_write_back "" (Some ["3"; "1"; "9"]) selection_sample). reflexivity.
Defined.

Example value_write_back_in_overview_clears :
  let st' := Effect.state_of
      (DepositsWithdrawalsContent.value_set (Some ["3"; "1"]) selection_sample) in
  DepositsWithdrawalsContent.selected
    (Effect.state_of
       (DepositsWithdrawalsContent.value_set
          (DepositsWithdrawalsContent.value_get "kraken" st') st'))
  = [].
Proof. by vm_compute. Qed.

(** *** Table views: more on the columns *)

(** X7. The deposits/withdrawals table shows the [location] column exactly
    when the request carries no location, that is on the view's own page;
    a view scoped to a location sends it, in snake case, and hides the
    column. *)
Theorem location_column_iff_unscoped
    (t : string → string) (toSnakeCase : string → string)
    (locationOverview : string) :
  let keys := DataTable.key <$>
                DepositsWithdrawalsContent.tableHeaders t locationOverview in
  let sent := DepositsWithdrawalsContent.location
                (DepositsWithdrawalsContent.requestParams locationOverview toSnakeCase) in
  ("location" ∈ keys ↔ sent = None)
  ∧ (sent = None ↔ locationOverview = "")
  ∧ (sent = None ∨ sent = Some (toSnakeCase locationOverview)).
Proof.
  unfold DepositsWithdrawalsContent.tableHeaders, DepositsWithdrawalsContent.mainPage,
    DepositsWithdrawalsContent.requestParams.
  case_bool_decide as Hloc; simpl.
  - repeat split; try done; [|by left]. intros _.
    apply list_elem_of_In. simpl. tauto.
  - repeat split; try done; [|by right].
    intros Hin. exfalso. apply list_elem_of_In in Hin. simpl in Hin.
    intuition discriminate.
Qed.

(** X8. In both tables the keys of the columns are pairwise distinct,
    whatever the scope of the view and whatever the visible columns. *)
Theorem column_keys_distinct
    (t : string → string) (locationOverview : string)
    (t' : string → list (string * string) → string)
    (currencySymbol group : string)
    (visibleColumns : list NftBalanceTable.TableColumn) :
  NoDup (DataTable.key <$> DepositsWithdrawalsContent.tableHeaders t locationOverview)
  ∧ NoDup (DataTable.key <$>
             NftBalanceTable.tableHeaders t' currencySymbol group visibleColumns).
Proof.
  split.
  - unfold DepositsWithdrawalsContent.tableHeaders, DepositsWithdrawalsContent.mainPage.
    case_bool_decide; simpl; apply (bool_decide_unpack _); by vm_compute.
  - unfold NftBalanceTable.tableHeaders.
    destruct (JsArray.includes visibleColumns NftBalanceTable.PERCENTAGE_OF_TOTAL_NET_VALUE),
      (JsArray.includes visibleColumns NftBalanceTable.PERCENTAGE_OF_TOTAL_CURRENT_GROUP);
      simpl; apply (bool_decide_unpack _); by vm_compute.
Qed.

(** X9. The columns of the NFT table depend on which columns are visible,
    not on the order of the list of visible columns or on repetitions in
    it. *)
Theorem nft_headers_by_membership
    (t : string → list (string * string) → string)
    (currencySymbol group : string)
    (visibleColumns visibleColumns' : list NftBalanceTable.TableColumn) :
  (∀ c, c ∈ visibleColumns ↔ c ∈ visibleColumns') →
  NftBalanceTable.tableHeaders t currencySymbol group visibleColumns
  = NftBalanceTable.tableHeaders t currencySymbol group visibleColumns'.
Proof.
  intros Hsame. unfold NftBalanceTable.tableHeaders, JsArray.includes.
  by rewrite !(bool_decide_ext _ _ (Hsame _)).
Qed.

Lemma nft_headers_by_membership_witness :
  NftBalanceTable.tableHeaders (λ k _, k) "EUR" "NFT"
    [NftBalanceTable.PERCENTAGE_OF_TOTAL_CURRENT_GROUP;
     NftBalanceTable.PERCENTAGE_OF_TOTAL_NET_VALUE;
     NftBalanceTable.PERCENTAGE_OF_TOTAL_CURRENT_GROUP]
  = NftBalanceTable.tableHeaders (λ k _, k) "EUR" "NFT"
      [NftBalanceTable.PERCENTAGE_OF_TOTAL_NET_VALUE;
       NftBalanceTable.PERCENTAGE_OF_TOTAL_CURRENT_GROUP].
Proof.
  apply nft_headers_by_membership.
  intros c. rewrite !list_elem_of_In. simpl. tauto.
Defined.

(** X10. The NFT table always starts with its three base columns, in the
    same order; the percentage columns that follow keep a fixed order (net
    value before current group), so the total row has between 0 and 2
    cells to patch on the right ([tableHeaders.length - 3]). *)
Theorem nft_headers_shape
    (t : string → list (string * string) → string)
    (currencySymbol group : string)
    (visibleColumns : list NftBalanceTable.TableColumn) :
  let keys := DataTable.key <$>
                NftBalanceTable.tableHeaders t currencySymbol group visibleColumns in
  take 3 keys = ["name"; "priceInAsset"; "usdPrice"]
  ∧ drop 3 keys `sublist_of`
      ["percentageOfTotalNetValue"; "percentageOfTotalCurrentGroup"]
  ∧ length keys - 3 ≤ 2.
Proof.
  unfold NftBalanceTable.tableHeaders.
  destruct (JsArray.includes visibleColumns NftBalanceTable.PERCENTAGE_OF_TOTAL_NET_VALUE),
    (JsArray.includes visibleColumns NftBalanceTable.PERCENTAGE_OF_TOTAL_CURRENT_GROUP);
    simpl; (split; [done|]); (split; [|lia]);
    repeat first [apply sublist_nil_l | apply sublist_skip | apply sublist_cons].
Qed.

(** *** Deposits and withdrawals: the filter query *)

(** X11. When the filters are updated from a query, ignored assets are shown
    only for the query value [false] of [excludeIgnoredAssets]; any other
    value, or none, excludes them.  A query that carries the current setting
    changes no ref and makes no call. *)
Theorem update_filters_query
    (locationOverview : string) (toSnakeCase : string → string)
    (env : DepositsWithdrawalsContent.Collaborators)
    (query : option string) (st : DepositsWithdrawalsContent.State) :
  let r := DepositsWithdrawalsContent.handle locationOverview toSnakeCase env
             (DepositsWithdrawalsContent.UpdateFilters query) st in
  let current := Some (if DepositsWithdrawalsContent.showIgnoredAssets st
                       then "false" else "true") in
  (DepositsWithdrawalsContent.showIgnoredAssets (Effect.state_of r) = true
   ↔ query = Some "false")
  ∧ (DepositsWithdrawalsContent.excludeIgnoredAssets
       (DepositsWithdrawalsContent.extraParams (Effect.state_of r)) = true
     ↔ query ≠ Some "false")
  ∧ DepositsWithdrawalsContent.selected (Effect.state_of r)
    = DepositsWithdrawalsContent.selected st
  ∧ DepositsWithdrawalsContent.handle locationOverview toSnakeCase env
      (DepositsWithdrawalsContent.UpdateFilters current) st
    = (st, [], Some tt).
Proof.
  unfold DepositsWithdrawalsContent.handle,
    DepositsWithdrawalsContent.refetchOnChange,
    DepositsWithdrawalsContent.fetchData.
  run. destruct st as [shown sel data]. simpl.
  split; [|split; [|split]].
  - destruct (decide _); simpl; [|destruct (DepositsWithdrawalsContent.fetched env)];
      simpl; apply bool_decide_eq_true.
  - destruct (decide _); simpl; [|destruct (DepositsWithdrawalsContent.fetched env)];
      simpl; rewrite negb_true_iff; apply bool_decide_eq_false.
  - destruct (decide _); simpl; [|destruct (DepositsWithdrawalsContent.fetched env)];
      done.
  - destruct shown; simpl; by rewrite decide_True.
Qed.

(** *** Table views: the loading flag over consecutive ticks *)

Section TickCount.
Context {S E : Type} (isF : E → bool) (cb : bool → bool → Effect.M S E unit).
Hypothesis cb_calls : ∀ value oldValue st,
  length (List.filter isF (Effect.calls_of (cb value oldValue st)))
  = if negb value && oldValue then 1 else 0.

Lemma tick_count (oldValue : bool) (writes : list bool) (st : S) :
  length (List.filter isF (Effect.calls_of (Vue.tick cb oldValue writes st)))
  = if oldValue && negb (Vue.afterWrites oldValue writes) then 1 else 0.
Proof.
  pose proof (cb_calls (Vue.afterWrites oldValue writes) oldValue st) as Hcb.
  unfold Vue.tick, Vue.runWatcher. revert Hcb. run.
  destruct (decide (Vue.afterWrites oldValue writes = oldValue)) as [->|Hne].
  - intros _. simpl. by destruct oldValue.
  - destruct (cb _ _ st) as [[st1 l1] [[]|]]; simpl; rewrite ?List.app_nil_r;
      intros ->; by rewrite andb_comm.
Qed.

Lemma watchTicks_count (oldValue : bool) (ticks : list (list bool)) (st : S) :
  length (List.filter isF (EventLoop.watchTicks cb oldValue ticks st).2)
  = fallingEdges oldValue (EventLoop.endValues oldValue ticks).
Proof.
  revert oldValue st. induction ticks as [|writes ticks IH]; intros oldValue st;
    [done|].
  simpl. pose proof (tick_count oldValue writes st) as Htick.
  destruct (Vue.tick cb oldValue writes st) as [[st1 l1] r].
  specialize (IH (Vue.afterWrites oldValue writes) st1).
  destruct (EventLoop.watchTicks cb (Vue.afterWrites oldValue writes) ticks st1)
    as [st2 l2].
  simpl in *. unfold Effect.calls_of in Htick. simpl in Htick.
  by rewrite List.filter_app, length_app, Htick, IH.
Qed.

Lemma endValues_single (oldValue : bool) (writes : list bool) :
  EventLoop.endValues oldValue ((λ b, [b]) <$> writes) = writes.
Proof.
  revert oldValue. induction writes as [|b writes IH]; intros oldValue; [done|].
  simpl. by rewrite IH.
Qed.
End TickCount.

(** X12. Over any number of consecutive ticks, each table view fetches,
    through the watcher of its loading flag, as often as the flag goes from
    true to false between the ends of successive ticks; when every write to
    the flag has a tick of its own, that is once for each true-to-false
    transition of the flag.  This holds whether the fetches succeed or
    not. *)
Theorem loading_ticks_fetch_count
    (locationOverview : string) (toSnakeCase : string → string)
    (env : DepositsWithdrawalsContent.Collaborators)
    (st : DepositsWithdrawalsContent.State)
    (env' : NftBalanceTable.Collaborators) (st' : NftBalanceTable.State)
    (wasLoading : bool) (ticks : list (list bool)) (writes : list bool) :
  let fetches ticks :=
    length (List.filter DepositsWithdrawalsContent.isFetch
              (EventLoop.watchTicks
                 (DepositsWithdrawalsContent.onLoadingChange
                    locationOverview toSnakeCase env)
                 wasLoading ticks st).2) in
  let fetches' ticks :=
    length (List.filter NftBalanceTable.isFetch
              (EventLoop.watchTicks (NftBalanceTable.onLoadingChange env')
                 wasLoading ticks st').2) in
  fetches ticks = fallingEdges wasLoading (EventLoop.endValues wasLoading ticks)
  ∧ fetches' ticks = fallingEdges wasLoading (EventLoop.endValues wasLoading ticks)
  ∧ fetches ((λ b, [b]) <$> writes) = fallingEdges wasLoading writes
  ∧ fetches' ((λ b, [b]) <$> writes) = fallingEdges wasLoading writes.
Proof.
  intros fetches fetches'. subst fetches fetches'. simpl.
  assert (∀ value oldValue s,
    length (List.filter DepositsWithdrawalsContent.isFetch
              (Effect.calls_of
                 (DepositsWithdrawalsContent.onLoadingChange
                    locationOverview toSnakeCase env value oldValue s)))
    = if negb value && oldValue then 1 else 0) as Hdw.
  { intros value oldValue s.
    unfold DepositsWithdrawalsContent.onLoadingChange,
      DepositsWithdrawalsContent.fetchData. run.
    destruct (negb value && oldValue); [|done].
    by destruct (DepositsWithdrawalsContent.fetched env). }
  assert (∀ value oldValue s,
    length (List.filter NftBalanceTable.isFetch
              (Effect.calls_of
                 (NftBalanceTable.onLoadingChange env' value oldValue s)))
    = if negb value && oldValue then 1 else 0) as Hnft.
  { intros value oldValue s.
    unfold NftBalanceTable.onLoadingChange, NftBalanceTable.fetchData. run.
    destruct (negb value && oldValue); [|done].
    by destruct (NftBalanceTable.fetched env'). }
  rewrite !(watchTicks_count _ _ Hdw), !(watchTicks_count _ _ Hnft),
    endValues_single.
  done.
Qed.

Example loading_ticks_sample :
  (EventLoop.watchTicks (NftBalanceTable.onLoadingChange nft_collaborators_ok)
     false [[true]; [false; true]; [false]; [true; false]; [true]; [false]]
     {| NftBalanceTable.balances := [] |}).2
  = [NftBalanceTable.fetchNonFungibleBalances "exclude";
     NftBalanceTable.fetchNonFungibleBalances "exclude"].
Proof. by vm_compute. Qed.

(** *** The account management dialog: more on the dirty flag *)

Section DialogFlag.
Context {Data : Type} `{EqDecision Data}.
Import AccountDialog.

Implicit Types (st : State Data) (u : Update Data) (us : list (Update Data)).

Lemma update_result u st :
  ∃ st', update u st = (st', [], Some tt)
         ∧ errorMessages st' = errorMessages st
         ∧ (model st' = None → stateUpdated st = false → stateUpdated st' = false)
         ∧ (model st' = None → is_Some (model st) → stateUpdated st' = false)
         ∧ (u ≠ Replace None → is_Some (model st) →
            stateUpdated st = true → stateUpdated st' = true ∧ is_Some (model st')).
Proof.
  destruct st as [old dirty errs]. unfold update, onModelChange, isEqual. run.
  destruct u as [[value|]|value], old as [old|]; simpl;
    try (destruct (bool_decide (chain value = chain old) && _); simpl);
    rewrite ?bool_decide_eq_true_2 by done; simpl;
    eexists; (split; [reflexivity|]); simpl;
    repeat split; try done; try (by intros ? [? ?]); try (by intros [? ?]);
    try (by intros _ [? ?]); eauto.
Qed.

Lemma updates_result us st :
  ∃ st', updates us st = (st', [], Some tt)
         ∧ errorMessages st' = errorMessages st
         ∧ ((model st = None → stateUpdated st = false) →
            model st' = None → stateUpdated st' = false).
Proof.
  revert st. induction us as [|u us IH]; intros st.
  { exists st. simpl. repeat split; eauto. }
  destruct (update_result u st) as (st1 & Hu & He1 & Hc1 & Hc1' & _).
  destruct (IH st1) as (st2 & Hus & He2 & Hc2).
  exists st2. cbn [updates]. run. rewrite Hu, Hus. simpl.
  split; [done|]. split; [congruence|].
  intros Hinv. apply Hc2. intros Hnone.
  destruct (model st) as [old|] eqn:Hm; [by apply Hc1'|by apply Hc1; auto].
Qed.

(** X13. However the model was replaced or mutated since the dialog was set
    up, the dirty flag is false whenever the dialog is closed, so the dialog
    never opens dirty; following the model calls no collaborator and leaves
    the error messages alone. *)
Theorem closed_dialog_is_clean us :
  let r := updates us (@setup Data) in
  Effect.calls_of r = []
  ∧ Effect.outcome_of r = Some tt
  ∧ errorMessages (Effect.state_of r) = []
  ∧ (stateUpdated (Effect.state_of r) = false ∨ is_Some (model (Effect.state_of r)))
  ∧ ∀ E, stateUpdated
           (Effect.state_of (update (Replace (Some E)) (Effect.state_of r)))
         = true → is_Some (model (Effect.state_of r)).
Proof.
  destruct (updates_result us (@setup Data)) as (st' & Hr & He & Hinv).
  simpl. rewrite Hr. unfold Effect.calls_of, Effect.outcome_of, Effect.state_of.
  simpl. split; [done|]. split; [done|]. split; [done|].
  destruct (model st') as [m|] eqn:Hm.
  - split; [right; eauto|]. eauto.
  - split; [left; by apply Hinv|].
    intros E. destruct st' as [old dirty errs]. simpl in Hm. subst old.
    unfold update, onModelChange. run. simpl. done.
Qed.

(** X14. Once the flag is true it stays true for as long as the dialog stays
    open: no later change of the form, not even one that restores the
    initial data, resets it. *)
Theorem dirty_stays_while_open us st :
  is_Some (model st) →
  stateUpdated st = true →
  Forall (λ u, u ≠ Replace None) us →
  stateUpdated (Effect.state_of (updates us st)) = true
  ∧ is_Some (model (Effect.state_of (updates us st))).
Proof.
  intros Hopen Hdirty Hus. revert st Hopen Hdirty.
  induction Hus as [|u us Hu Hus IH]; intros st Hopen Hdirty; [done|].
  destruct (update_result u st) as (st1 & Hr & _ & _ & _ & Hkeep).
  destruct (Hkeep Hu Hopen Hdirty) as [Hdirty1 Hopen1].
  specialize (IH st1 Hopen1 Hdirty1).
  destruct (updates_result us st1) as (st2 & Hr2 & _).
  cbn [updates]. run. rewrite Hr. rewrite Hr2 in IH |- *. done.
Qed.

(** X15. A mutation of the model object in place never changes the flag,
    and neither does a replacement that changes the chain, whatever happens
    to the data with it. *)
Theorem flag_kept_by_mutation_and_chain_change
    (value : AccountManageState Data) st :
  stateUpdated (Effect.state_of (update (MutateInPlace value) st)) = stateUpdated st
  ∧ ∀ old, model st = Some old → chain value ≠ chain old →
           stateUpdated (Effect.state_of (update (Replace (Some value)) st))
           = stateUpdated st.
Proof.
  destruct st as [old dirty errs]. unfold update, onModelChange, isEqual. run.
  split.
  - destruct old as [old|]; simpl; [|done].
    by rewrite !bool_decide_eq_true_2.
  - intros old' Hold Hchain. simpl in Hold. subst old. simpl.
    by rewrite bool_decide_eq_false_2.
Qed.
End DialogFlag.

Lemma dirty_stays_while_open_witness :
  let st := Effect.state_of
      (AccountDialog.updates
         [AccountDialog.Replace (Some account_edited);
          AccountDialog.MutateInPlace account_edited;
          AccountDialog.Replace (Some account_E)]
         {| AccountDialog.model := Some account_E;
            AccountDialog.stateUpdated := true;
            AccountDialog.errorMessages := [] |}) in
  AccountDialog.stateUpdated st = true ∧ is_Some (AccountDialog.model st).
Proof.
  apply dirty_stays_while_open; [by eexists|reflexivity|].
  repeat constructor; discriminate.
Defined.

(** *** The account management dialog: more on confirm and cancel *)

Section DialogConfirm.
Context {Data : Type} `{EqDecision Data}.
Import AccountDialog AccountDialogTurns.

Implicit Types (st : State Data) (s : AccountManageState Data).

(** X16. A confirm rejects exactly when the dialog is closed (the form
    does not exist), when the validation rejects, when the form is valid but
    the model is undefined once the validation has settled (the dialog was
    dismissed meanwhile), or when the save action rejects.  On a closed
    dialog it rejects without a call and without touching the state; after a
    dismissal during the validation, with the validation as its only
    call. *)
Theorem confirm_rejects_iff (validateResult : option bool)
    (saveResult : AccountManageState Data → option bool)
    (duringValidate duringSave : State Data → State Data) st :
  let r := confirm validateResult saveResult duringValidate duringSave st in
  let st1 := duringValidate (set_errorMessages [] st) in
  (Effect.outcome_of r = None
   ↔ model st = None
     ∨ validateResult = None
     ∨ (validateResult = Some true
        ∧ (model st1 = None ∨ ∃ s1, model st1 = Some s1 ∧ saveResult s1 = None)))
  ∧ (model st = None → r = (st, [], None))
  ∧ (is_Some (model st) → validateResult = Some true → model st1 = None →
     r = (st1, [validate (Some true)], None)).
Proof.
  intros r st1.
  pose proof (confirm_cases validateResult saveResult duringValidate duringSave st)
    as Hr.
  fold r in Hr. simpl in Hr. fold st1 in Hr.
  destruct (model st) as [s|] eqn:Hm;
    [destruct validateResult as [[|]|];
     [destruct (model st1) as [s1|] eqn:Hm1;
      [destruct (saveResult s1) as [[|]|] eqn:Hs|]|..]|];
    rewrite Hr; unfold Effect.outcome_of; simpl;
    (split; [|split; [done|]; try done; by intros [? ?]]);
    (split; [try done; eauto 8|]);
    try (intros [?|[?|[? [?|(s' & Hs' & Hn)]]]]; congruence); eauto.
Qed.

(** X17. The calls of a confirm are an initial part of the sequence
    validate, save, emit [complete], each with what it answered; the save
    action gets the model as it is once the validation has settled. *)
Theorem confirm_calls_prefix (validateResult : option bool)
    (saveResult : AccountManageState Data → option bool)
    (duringValidate duringSave : State Data → State Data) st :
  Effect.calls_of (confirm validateResult saveResult duringValidate duringSave st)
  `prefix_of`
  match model st with
  | Some _ =>
      validate validateResult
      :: match model (duringValidate (set_errorMessages [] st)) with
         | Some s1 => [save s1 (saveResult s1); emit_complete]
         | None => []
         end
  | None => []
  end.
Proof.
  pose proof (confirm_cases validateResult saveResult duringValidate duringSave st)
    as Hr.
  simpl in Hr.
  destruct (model st) as [s|];
    [destruct validateResult as [[|]|];
     [destruct (model (duringValidate _)) as [s1|];
      [destruct (saveResult s1) as [[|]|] eqn:Hs|]|..]|];
    rewrite Hr; unfold Effect.calls_of; simpl;
    try done; try (by eexists [_]); try (by eexists [_; _]); by eexists.
Qed.

(** X18. The only write of a confirm to the error messages is the reset
    before the validation starts: the validation begins without an error
    message, and the error messages after the confirm are those of the
    state in which its last awaited call settled.  So if nothing writes the
    error messages while the validation and the save action are pending,
    a confirm on an open dialog leaves none. *)
Theorem confirm_resets_errorMessages (validateResult : option bool)
    (saveResult : AccountManageState Data → option bool)
    (duringValidate duringSave : State Data → State Data) st :
  let r := confirm validateResult saveResult duringValidate duringSave st in
  let st1 := duringValidate (set_errorMessages [] st) in
  errorMessages (Effect.state_of r)
  = errorMessages
      (match model st with
       | None => st
       | Some _ =>
           if bool_decide (validateResult = Some true ∧ is_Some (model st1))
           then duringSave st1 else st1
       end)
  ∧ ((∀ x, errorMessages (duringValidate x) = errorMessages x) →
     (∀ x, errorMessages (duringSave x) = errorMessages x) →
     is_Some (model st) → errorMessages (Effect.state_of r) = []).
Proof.
  intros r st1.
  pose proof (confirm_cases validateResult saveResult duringValidate duringSave st)
    as Hr.
  fold r in Hr. simpl in Hr. fold st1 in Hr.
  assert (errorMessages (Effect.state_of r)
          = errorMessages
              (match model st with
               | None => st
               | Some _ =>
                   if bool_decide (validateResult = Some true ∧ is_Some (model st1))
                   then duringSave st1 else st1
               end)) as Heq.
  { destruct (model st) as [s|] eqn:Hm;
      [destruct validateResult as [[|]|];
       [destruct (model st1) as [s1|] eqn:Hm1;
        [destruct (saveResult s1) as [[|]|]|]|..]|];
      rewrite Hr; unfold Effect.state_of; simpl;
      try (rewrite bool_decide_eq_true_2 by (split; [done|by eexists]); done);
      try (rewrite bool_decide_eq_false_2; [done|];
           first [by intros [? [? ?]]|by intros [? ?]]);
      done. }
  split; [exact Heq|].
  intros Hv Hs [s Hm]. rewrite Heq, Hm.
  case_bool_decide; rewrite ?Hs; unfold st1; by rewrite Hv.
Qed.

(** X19. With the watcher of the model run after the handler, a cancel of
    an open dialog closes it and resets the dirty flag, makes no call and
    keeps the error messages; on a closed dialog it changes nothing. *)
Theorem cancel_closes_and_resets st :
  onCancel st
  = (match model st with
     | Some _ =>
         {| model := None; stateUpdated := false;
            errorMessages := errorMessages st |}
     | None => st
     end, [], Some tt).
Proof.
  destruct st as [[s|] dirty errs];
    unfold onCancel, withModelWatcher, dismiss, onModelChange; run; done.
Qed.
End DialogConfirm.
